(** * html_reference.py: the reference dump generator

    A shallow embedding of [scripts/html_reference.py], the script that
    wraps html5lib and prints token and tree dumps, together with the
    properties of its escaping, formatting and error handling.

    Python strings are sequences of Unicode code points; they are modelled
    as lists of code points ([N]), so that [ord] is the identity and
    iteration over a string is iteration over the list.

    html5lib itself is not part of the script: its tokenizer and its
    parser are parameters of the functions that call them, and return a
    value or raise an exception of class [Exception].  The limits of the
    interpreter (recursion depth, memory) are outside the model. *)

From Stdlib Require Import Ascii String.
From Stdlib Require Import NArith List Bool Lia.
From Stdlib Require Import Sorting.Sorted Sorting.Permutation.
Import ListNotations.
Open Scope N_scope.

(** ** Python strings *)

Definition char := N.
Definition str := list char.

(** An ASCII literal of the source, as a Python string. *)
Definition lit (s : string) : str := map N_of_ascii (list_ascii_of_string s).

(** The double-quote character and the newline. *)
Definition dq : char := 34.
Definition newline : char := 10.

(** [sep.join(parts)]. *)
Fixpoint join (sep : str) (parts : list str) : str :=
  match parts with
  | [] => []
  | p :: ps =>
      match ps with
      | [] => p
      | _ :: _ => p ++ sep ++ join sep ps
      end
  end.

(** [s * n] for a string [s]. *)
Fixpoint str_mul (s : str) (n : nat) : str :=
  match n with
  | O => []
  | S k => s ++ str_mul s k
  end.

(** *** The format specification [02x] *)

Definition hex_digit (d : N) : char :=
  if d <? 10 then 48 + d else 87 + d.

(** The hexadecimal digits of [n], most significant first, in front of
    [acc]; [fuel] bounds the number of digits. *)
Fixpoint hex_digits (fuel : nat) (n : N) (acc : str) : str :=
  match fuel with
  | O => acc
  | S f =>
      let acc' := hex_digit (n mod 16) :: acc in
      if n / 16 =? 0 then acc' else hex_digits f (n / 16) acc'
  end.

(** [format(n, 'x')]. *)
Definition format_x (n : N) : str :=
  hex_digits (S (N.to_nat (N.log2 n))) n [].

(** [format(n, '02x')]: zero-filled on the left to a width of two. *)
Definition format_02x (n : N) : str :=
  let d := format_x n in
  repeat 48 (2 - length d) ++ d.

(** ** escape_for_moonbit *)

(** One iteration of the loop body over the accumulator [result]. *)
Definition escape_step (result : list str) (c : char) : list str :=
  let code := c in
  if c =? 92 then result ++ [lit "\\"]
  else if c =? 34 then result ++ [[92; dq]]
  else if c =? 10 then result ++ [lit "\n"]
  else if c =? 9 then result ++ [lit "\t"]
  else if c =? 13 then result ++ [lit "\r"]
  else if code <? 0x20 then result ++ [lit "\u{" ++ format_02x code ++ lit "}"]
  else if code =? 0x7F then result ++ [lit "\u{7f}"]
  else if (0x80 <=? code) && (code <=? 0x9F)
       then result ++ [lit "\u{" ++ format_02x code ++ lit "}"]
  else result ++ [[c]].

Definition escape_for_moonbit (s : str) : str :=
  join [] (fold_left escape_step s []).

(** *** The escaping rules as the specification words them *)

(** The non-printable control characters: below U+0020, U+007F, and
    U+0080 to U+009F. *)
Definition is_control (c : char) : bool :=
  (c <? 0x20) || (c =? 0x7F) || ((0x80 <=? c) && (c <=? 0x9F)).

(** The conventional short escapes. *)
Definition short_escape (c : char) : option str :=
  if c =? 92 then Some [92; 92]
  else if c =? 34 then Some [92; 34]
  else if c =? 10 then Some [92; 110]
  else if c =? 9 then Some [92; 116]
  else if c =? 13 then Some [92; 114]
  else None.

(** The form [\u{xx}] with the two lowercase hexadecimal digits of [c]. *)
Definition hex_escape (c : char) : str :=
  [92; 117; 123; hex_digit (c / 16); hex_digit (c mod 16); 125].

(** A character with a short escape uses it; any other control character
    uses the hexadecimal form; every other character stands for itself. *)
Definition escaped_form (c : char) : str :=
  match short_escape c with
  | Some e => e
  | None => if is_control c then hex_escape c else [c]
  end.

(** ** Exceptions *)

(** A Python exception of class [Exception]: its class name and the
    message that [str(e)] gives. *)
Record Exception := mkException {
  exc_class : string;
  exc_message : str
}.

(** [str(e)]. *)
Definition str_of_exception (e : Exception) : str := exc_message e.

(** A computation that returns a value or raises an exception. *)
Inductive result (A : Type) : Type :=
| Return (a : A)
| Raise (e : Exception).
Arguments Return {A} a.
Arguments Raise {A} e.

Definition bind {A B : Type} (m : result A) (f : A -> result B) : result B :=
  match m with
  | Return a => f a
  | Raise e => Raise e
  end.

Notation "x <- m ;; k" := (bind m (fun x => k))
  (at level 61, m at next level, right associativity).

(** [try: body / except Exception as e: handler(e)]. *)
Definition try_except {A : Type} (body : result A)
    (handler : Exception -> result A) : result A :=
  match body with
  | Return a => Return a
  | Raise e => handler e
  end.

(** The run of an iterator: the items it yields one after the other, until
    it is exhausted or raises. *)
Inductive iterator (A : Type) : Type :=
| StopIteration
| Yield (a : A) (rest : iterator A)
| Raising (e : Exception).
Arguments StopIteration {A}.
Arguments Yield {A} a rest.
Arguments Raising {A} e.

(** The items an iterator yields before it stops or raises. *)
Fixpoint yielded {A : Type} (it : iterator A) : list A :=
  match it with
  | StopIteration => []
  | Yield a rest => a :: yielded rest
  | Raising _ => []
  end.

(** The exception that ends the run, if one does. *)
Fixpoint raised {A : Type} (it : iterator A) : option Exception :=
  match it with
  | StopIteration => None
  | Yield _ rest => raised rest
  | Raising e => Some e
  end.

(** ** html5lib tokens *)

(** The value under the key ['type']: html5lib's tokenizer stores the
    integer codes of [tokenTypes]; [format_token_for_moonbit] compares
    with the names. *)
Inductive type_value :=
| TypeName (s : str)
| TypeCode (n : N).

(** The value under the key ['data']: the attribute dictionary of a tag
    (in insertion order) or the text of the other tokens. *)
Inductive data_value :=
| DataAttrs (attrs : list (str * str))
| DataText (s : str).

(** A token dictionary.  A key that is present holds a value of the type
    html5lib gives it: ['name'] a string, ['selfClosing'] and ['correct']
    a boolean, ['publicId'] and ['systemId'] a string or [None].  A field
    that is [None] is an absent key; for ['publicId'] and ['systemId'],
    which the source reads with [token.get(key)] only, it is also a key
    that holds [None].  ['correct'] is html5lib's negated force-quirks
    flag. *)
Record token := mkToken {
  tok_type : option type_value;
  tok_name : option str;
  tok_data : option data_value;
  tok_selfClosing : option bool;
  tok_publicId : option str;
  tok_systemId : option str;
  tok_correct : option bool
}.

(** [d.get(key, default)]. *)
Definition get {A : Type} (field : option A) (default : A) : A :=
  match field with
  | Some v => v
  | None => default
  end.

(** ** tokenize_html *)

(** The second component of the pair [tokenize_html] returns: the token
    list, or the message of the exception. *)
Inductive tokens_or_message :=
| Tokens (l : list token)
| Message (s : str).

(** [for token in tokenizer: tokens.append(token)]. *)
Fixpoint for_append {A : Type} (it : iterator A) (tokens : list A)
    : result (list A) :=
  match it with
  | StopIteration => Return tokens
  | Yield a rest => for_append rest (tokens ++ [a])
  | Raising e => Raise e
  end.

Section Html5lib.

(** html5lib's tokenizer on a fully materialised input:
    [HTMLTokenizer(html_content)] and its iteration, as the run it makes
    (an exception of the constructor is a run that raises at once).  The
    run is finite: the library is taken to yield finitely many tokens on
    a finite input.  The two imports at the head of the function stand
    before the [try] and are taken to succeed. *)
Variable HTMLTokenizer : str -> iterator token.

Definition tokenize_html (html_content : str)
    : result (bool * tokens_or_message) :=
  try_except
    (tokens <- for_append (HTMLTokenizer html_content) [] ;;
     Return (true, Tokens tokens))
    (fun e => Return (false, Message (str_of_exception e))).

End Html5lib.

(** ** format_token_for_moonbit *)

Definition str_eqb (a b : str) : bool :=
  if list_eq_dec N.eq_dec a b then true else false.

(** [token_type == name] for a name of the source. *)
Definition type_is (t : option type_value) (name : string) : bool :=
  match t with
  | Some (TypeName s) => str_eqb s (lit name)
  | _ => false
  end.

(** [str(b)] for a boolean. *)
Definition str_of_bool (b : bool) : str :=
  if b then lit "True" else lit "False".

(** [s.lower()], on the ASCII letters. *)
Definition lower (s : str) : str :=
  map (fun c => if (65 <=? c) && (c <=? 90) then c + 32 else c) s.

(** [attrs.items()]: a dictionary has items, a string has not. *)
Definition items (d : data_value) : result (list (str * str)) :=
  match d with
  | DataAttrs attrs => Return attrs
  | DataText _ =>
      Raise (mkException "AttributeError"
               (lit "'str' object has no attribute 'items'"))
  end.

(** [str(n)] for a natural number. *)
Fixpoint dec_digits (fuel : nat) (n : N) (acc : str) : str :=
  match fuel with
  | O => acc
  | S f =>
      let acc' := (48 + n mod 10) :: acc in
      if n / 10 =? 0 then acc' else dec_digits f (n / 10) acc'
  end.

Definition str_of_nat (n : nat) : str :=
  dec_digits (S n) (N.of_nat n) [].

(** Iteration over the value of ['data'] where the source expects a
    string: a string gives its characters; a dictionary gives its keys,
    and [ord] raises on the first key whose length is not one. *)
Definition chars_of (d : data_value) : result str :=
  match d with
  | DataText s => Return s
  | DataAttrs attrs =>
      match find (fun k => negb (Nat.eqb (length k) 1)) (map fst attrs) with
      | None => Return (concat (map fst attrs))
      | Some k =>
          Raise (mkException "TypeError"
                   (lit "ord() expected a character, but string of length "
                    ++ str_of_nat (length k) ++ lit " found"))
      end
  end.

(** One attribute of a start tag. *)
Definition format_attr (kv : str * str) : str :=
  lit "{name: " ++ [dq] ++ escape_for_moonbit (fst kv) ++ [dq]
  ++ lit ", value: " ++ [dq] ++ escape_for_moonbit (snd kv) ++ [dq]
  ++ lit "}".

(** [Some("...")] if the field is truthy, else [None]. *)
Definition format_optional (field : option str) : str :=
  match field with
  | Some ((_ :: _) as s) =>
      lit "Some(" ++ [dq] ++ escape_for_moonbit s ++ [dq] ++ lit ")"
  | _ => lit "None"
  end.

(** The function returns a string or [None]. *)
Definition format_token_for_moonbit (token : token) : result (option str) :=
  let token_type := tok_type token in
  if type_is token_type "StartTag" then
    let name := escape_for_moonbit (get (tok_name token) []) in
    let attrs := get (tok_data token) (DataAttrs []) in
    let self_closing := get (tok_selfClosing token) false in
    kvs <- items attrs ;;
    let attrs_str := join (lit ", ") (map format_attr kvs) in
    Return (Some (lit "StartTag(name=" ++ [dq] ++ name ++ [dq]
                  ++ lit ", attrs=[" ++ attrs_str
                  ++ lit "], self_closing="
                  ++ lower (str_of_bool self_closing) ++ lit ")"))
  else if type_is token_type "EndTag" then
    let name := escape_for_moonbit (get (tok_name token) []) in
    Return (Some (lit "EndTag(name=" ++ [dq] ++ name ++ [dq] ++ lit ")"))
  else if type_is token_type "Characters"
          || type_is token_type "SpaceCharacters" then
    data <- chars_of (get (tok_data token) (DataText [])) ;;
    let chars :=
      map (fun c => lit "Character('" ++ escape_for_moonbit [c] ++ lit "')")
          data in
    Return (Some (join (lit ", ") chars))
  else if type_is token_type "Comment" then
    data <- chars_of (get (tok_data token) (DataText [])) ;;
    Return (Some (lit "Comment(" ++ [dq] ++ escape_for_moonbit data ++ [dq]
                  ++ lit ")"))
  else if type_is token_type "Doctype" then
    let name_str := format_optional (tok_name token) in
    let pub_str := format_optional (tok_publicId token) in
    let sys_str := format_optional (tok_systemId token) in
    Return (Some (lit "DOCTYPE(name=" ++ name_str
                  ++ lit ", public_id=" ++ pub_str
                  ++ lit ", system_id=" ++ sys_str
                  ++ lit ", force_quirks=false)"))
  else if type_is token_type "ParseError" then
    Return None
  else
    Return None.

(** ** ElementTree elements *)

(** The attribute [tag] of an element is a string, or another object
    (the [Comment] factory of a comment node) of which only [str(tag)]
    is used. *)
Inductive tag_value :=
| TagStr (s : str)
| TagObject (repr : str).

(** An element: its tag, its attribute dictionary (in insertion order),
    its text and tail ([None] or a string) and its children. *)
#[warnings="-register-all"]
Inductive Element :=
| mkElement (tag : tag_value) (attrib : list (str * str))
            (text tail : option str) (children : list Element).

Definition tag (e : Element) : tag_value :=
  match e with mkElement t _ _ _ _ => t end.
Definition attrib (e : Element) : list (str * str) :=
  match e with mkElement _ a _ _ _ => a end.
Definition text (e : Element) : option str :=
  match e with mkElement _ _ t _ _ => t end.
Definition tail (e : Element) : option str :=
  match e with mkElement _ _ _ t _ => t end.
Definition children (e : Element) : list Element :=
  match e with mkElement _ _ _ _ c => c end.

(** *** String operations of the tree dump *)

(** [c in s]. *)
Definition contains (c : char) (s : str) : bool := existsb (N.eqb c) s.

(** [s.split(sep)] for a separator of one character; [cur] is the piece
    being read. *)
Fixpoint split_from (sep : char) (s : str) (cur : str) : list str :=
  match s with
  | [] => [cur]
  | c :: s' =>
      if c =? sep then cur :: split_from sep s' []
      else split_from sep s' (cur ++ [c])
  end.

Definition split (sep : char) (s : str) : list str := split_from sep s [].

(** [a < b] on strings: lexicographic on the code points. *)
Fixpoint str_ltb (a b : str) : bool :=
  match a, b with
  | _, [] => false
  | [], _ :: _ => true
  | x :: a', y :: b' =>
      if x <? y then true
      else if y <? x then false
      else str_ltb a' b'
  end.

(** [p < q] on the pairs that [items()] gives: the first components
    decide unless they are equal. *)
Definition item_ltb (p q : str * str) : bool :=
  if str_eqb (fst p) (fst q) then str_ltb (snd p) (snd q)
  else str_ltb (fst p) (fst q).

(** [sorted(l)]: the stable sort by [<]. *)
Fixpoint insert_sorted (x : str * str) (l : list (str * str))
    : list (str * str) :=
  match l with
  | [] => [x]
  | y :: l' => if item_ltb y x then y :: insert_sorted x l' else x :: y :: l'
  end.

Fixpoint sorted (l : list (str * str)) : list (str * str) :=
  match l with
  | [] => []
  | x :: l' => insert_sorted x (sorted l')
  end.

(** [bool(s)] for an optional string: neither [None] nor empty. *)
Definition truthy (s : option str) : bool :=
  match s with
  | Some (_ :: _) => true
  | _ => false
  end.

(** *** element_to_str *)

(** The tag as printed: [str(elem.tag)] without a namespace prefix. *)
Definition tag_name (elem : Element) : str :=
  let tag := match tag elem with
             | TagStr s => s
             | TagObject repr => repr
             end in
  if contains 125 tag then nth 1 (split 125 tag) [] else tag.

Definition quoted_line (prefix s : str) : str :=
  prefix ++ lit "  " ++ [dq] ++ s ++ [dq].

Definition attr_line (prefix : str) (kv : str * str) : str :=
  prefix ++ lit "  " ++ fst kv ++ lit "=" ++ [dq] ++ snd kv ++ [dq].

Fixpoint element_to_str (elem : Element) (indent : nat) : list str :=
  let lines := [] in
  let prefix := str_mul (lit "| ") indent in
  let lines := lines ++ [prefix ++ lit "<" ++ tag_name elem ++ lit ">"] in
  let lines :=
    match attrib elem with
    | [] => lines
    | _ :: _ => lines ++ map (attr_line prefix) (sorted (attrib elem))
    end in
  let lines :=
    if truthy (text elem)
    then lines ++ [quoted_line prefix (get (text elem) [])]
    else lines in
  fold_left
    (fun lines child =>
       let lines := lines ++ element_to_str child (indent + 1) in
       if truthy (tail child)
       then lines ++ [quoted_line prefix (get (tail child) [])]
       else lines)
    (children elem) lines.

Section Html5libParser.

(** html5lib's parser with the etree tree builder:
    [HTMLParser(tree=getTreeBuilder("etree"),
    namespaceHTMLElements=False).parse(html_content)], the document
    element it returns or the exception it raises. *)
Variable parse : str -> result Element.

Definition parse_html_to_tree (html_content : str) : result (bool * str) :=
  try_except
    (doc <- parse html_content ;;
     let result := element_to_str doc 0 in
     Return (true, join [newline] result))
    (fun e => Return (false, str_of_exception e)).

End Html5libParser.

(** ** Notions of the statements *)

(** An entry of the token stream that is a parse error notice: its type
    is html5lib's [tokenTypes["ParseError"]] (the code 7), or the name
    that [format_token_for_moonbit] compares with. *)
Definition is_parse_error (t : token) : bool :=
  match tok_type t with
  | Some (TypeCode n) => n =? 7
  | Some (TypeName s) => str_eqb s (lit "ParseError")
  | None => false
  end.

(** A token of a given type, as the tokenizer's consumers see it. *)
Definition has_type (token : token) (name : string) : Prop :=
  tok_type token = Some (TypeName (lit name)).

(** [a <= b] on strings and on items, as [not (b < a)]. *)
Definition str_le (a b : str) : Prop := str_ltb b a = false.
Definition item_le (p q : str * str) : Prop := item_ltb q p = false.
Definition key_le (p q : str * str) : Prop := str_le (fst p) (fst q).

(** The parts of the dump of one element. *)
Definition prefix_of (indent : nat) : str := str_mul (lit "| ") indent.

Definition tag_line (elem : Element) (indent : nat) : str :=
  prefix_of indent ++ lit "<" ++ tag_name elem ++ lit ">".

Definition attr_lines (elem : Element) (indent : nat) : list str :=
  map (attr_line (prefix_of indent)) (sorted (attrib elem)).

Definition payload_lines (indent : nat) (s : option str) : list str :=
  if truthy s then [quoted_line (prefix_of indent) (get s [])] else [].

(** An element that the dump of [root] renders, with its depth under
    [root]. *)
Inductive rendered_in (root : Element) : nat -> Element -> Prop :=
| rendered_root : rendered_in root 0 root
| rendered_child (k : nat) (e c : Element) :
    rendered_in root k e -> In c (children e) -> rendered_in root (S k) c.

(** ** Sample inputs *)

(** A Doctype token with the force-quirks flag set (html5lib keeps its
    negation under ['correct']), as [<!DOCTYPE html bogus>] gives. *)
Definition doctype_force_quirks : token :=
  mkToken (Some (TypeName (lit "Doctype"))) (Some (lit "html"))
          None None None None (Some false).

(** A Doctype token that carries an empty public identifier, as
    [<!DOCTYPE html PUBLIC "">] gives. *)
Definition doctype_empty_public : token :=
  mkToken (Some (TypeName (lit "Doctype"))) (Some (lit "html"))
          None None (Some []) None (Some true).

(** The tree of [<b id="x" class="c">a\b</b>t]: the document element
    [html] with [head] and [body], and in [body] the element [b] with two
    attributes, the text [a\b] and the tail [t]. *)
Definition sample_b : Element :=
  mkElement (TagStr (lit "b")) [(lit "id", lit "x"); (lit "class", lit "c")]
            (Some [97; 92; 98]) (Some (lit "t")) [].

Definition sample_body : Element :=
  mkElement (TagStr (lit "body")) [] None None [sample_b].

Definition sample_doc : Element :=
  mkElement (TagStr (lit "html")) [] None None
            [mkElement (TagStr (lit "head")) [] None None []; sample_body].

(** A tokenizer in html5lib's shape for the examples: a NUL gives a parse
    error notice followed by U+FFFD, any other character a Characters
    token; the types are the integer codes of [tokenTypes]. *)
Definition sample_token (code : N) (data : str) : token :=
  mkToken (Some (TypeCode code)) None (Some (DataText data))
          None None None None.

Definition sample_tokenizer (html_content : str) : iterator token :=
  fold_right
    (fun c rest =>
       if c =? 0
       then Yield (sample_token 7 (lit "invalid-codepoint"))
                  (Yield (sample_token 1 [0xFFFD]) rest)
       else Yield (sample_token 1 [c]) rest)
    StopIteration html_content.

(** A run that yields one parse error notice and then raises. *)
Definition raising_tokenizer (html_content : str) : iterator token :=
  Yield (sample_token 7 (lit "invalid-codepoint"))
        (Raising (mkException "ValueError" (lit "boom"))).

(** A parse error notice marked the way [format_token_for_moonbit]
    compares types, by name. *)
Definition named_parse_error : token :=
  mkToken (Some (TypeName (lit "ParseError"))) None
          (Some (DataText (lit "invalid-codepoint"))) None None None None.

(** A self-closing start tag [a] whose attribute [href] holds [x], a
    double quote and [y], and the text [a] followed by a newline, as
    [format_token_for_moonbit] expects them. *)
Definition sample_start_tag : token :=
  mkToken (Some (TypeName (lit "StartTag"))) (Some (lit "a"))
          (Some (DataAttrs [(lit "href", [120; dq; 121])]))
          (Some true) None None None.

Definition sample_characters : token :=
  mkToken (Some (TypeName (lit "Characters"))) None
          (Some (DataText [97; 10])) None None None None.

(** ** main *)

(** What a run of the script leaves behind: the text that [print] wrote
    and the status given to [sys.exit]. *)
Record outcome := mkOutcome {
  printed : str;
  exit_status : N
}.

Section Main.

(** The parser, and the two sources of input: [open(path, 'r',
    encoding='utf-8')] followed by [read()], and [sys.stdin.read()];
    each gives the text or raises. *)
Variable parse : str -> result Element.
Variable read_file : str -> result str.
Variable stdin_read : result str.

(** [print(result)] followed by [sys.exit(0 if success else 1)]. *)
Definition print_and_exit (r : bool * str) : outcome :=
  let '(success, result) := r in
  mkOutcome (result ++ [newline]) (if success then 0 else 1).

(** [main()] on the argument vector [sys.argv]; an exception that no
    handler catches ends the run. *)
Definition main (argv : list str) : result outcome :=
  if Nat.ltb 1 (length argv) then
    content <- read_file (nth 1 argv []) ;;
    r <- parse_html_to_tree parse content ;;
    Return (print_and_exit r)
  else
    content <- stdin_read ;;
    r <- parse_html_to_tree parse content ;;
    Return (print_and_exit r).

End Main.

(** ** Notions of the further statements *)

(** The value of a lowercase hexadecimal digit. *)
Definition hex_value (c : char) : option N :=
  if (48 <=? c) && (c <=? 57) then Some (c - 48)
  else if (97 <=? c) && (c <=? 102) then Some (c - 87)
  else None.

(** A reader of the escapes: the short escapes and the form [\u{xx}]
    stand for one character, every other character for itself. *)
Fixpoint unescape (s : str) : str :=
  match s with
  | [] => []
  | c :: r =>
      if c =? 92 then
        match r with
        | [] => [c]
        | e :: r1 =>
            if e =? 92 then 92 :: unescape r1
            else if e =? 34 then 34 :: unescape r1
            else if e =? 110 then 10 :: unescape r1
            else if e =? 116 then 9 :: unescape r1
            else if e =? 114 then 13 :: unescape r1
            else
              match r1 with
              | b :: h1 :: h2 :: cl :: r2 =>
                  match hex_value h1, hex_value h2 with
                  | Some a1, Some a2 =>
                      if (e =? 117) && (b =? 123) && (cl =? 125)
                      then (16 * a1 + a2) :: unescape r2
                      else c :: unescape r
                  | _, _ => c :: unescape r
                  end
              | _ => c :: unescape r
              end
        end
      else c :: unescape r
  end.

(** A character that [escape_for_moonbit] rewrites. *)
Definition is_special (c : char) : bool :=
  (c =? 92) || (c =? 34) || is_control c.

(** The type names for which [format_token_for_moonbit] builds a
    string. *)
Definition rendered_types : list string :=
  ["StartTag"; "EndTag"; "Characters"; "SpaceCharacters"; "Comment";
   "Doctype"]%string.

Definition is_rendered (t : option type_value) : bool :=
  existsb (type_is t) rendered_types.

(** The value of ['data'] has the type html5lib gives it: a dictionary
    in a start tag, a string elsewhere (or the key is absent). *)
Definition data_well_typed (token : token) : bool :=
  match tok_data token with
  | None => true
  | Some (DataAttrs _) => type_is (tok_type token) "StartTag"
  | Some (DataText _) => negb (type_is (tok_type token) "StartTag")
  end.

(** [line] starts with [p]. *)
Definition starts_with (p line : str) : Prop := exists r, line = p ++ r.

(** A comment whose text holds a tab, and an end tag. *)
Definition sample_comment : token :=
  mkToken (Some (TypeName (lit "Comment"))) None
          (Some (DataText [97; 9; 98])) None None None None.

Definition sample_end_tag : token :=
  mkToken (Some (TypeName (lit "EndTag"))) (Some (lit "p"))
          None None None None None.

(** A file system with one file, [t.html], that holds [<b>], and a
    parser that knows this one document. *)
Definition sample_read_file (path : str) : result str :=
  if str_eqb path (lit "t.html") then Return (lit "<b>")
  else Raise (mkException "FileNotFoundError" (lit "No such file")).

Definition sample_parse (html_content : str) : result Element :=
  if str_eqb html_content (lit "<b>") then Return sample_doc
  else Raise (mkException "ValueError" (lit "unknown document")).

(** * Properties *)

(** ** Strings *)

Lemma join_nil_concat (parts : list str) : join [] parts = concat parts.
Proof.
  induction parts as [|p ps IH]; [reflexivity|].
  destruct ps as [|q qs].
  - simpl. now rewrite app_nil_r.
  - change (join [] (p :: q :: qs)) with (p ++ [] ++ join [] (q :: qs)).
    rewrite IH. reflexivity.
Qed.

Lemma format_02x_two_digits (n : N) :
  n < 256 -> format_02x n = [hex_digit (n / 16); hex_digit (n mod 16)].
Proof.
  intros Hn. unfold format_02x, format_x.
  destruct (N.eqb_spec (n / 16) 0) as [Hq|Hq].
  - cbn [hex_digits]. rewrite Hq. cbn. reflexivity.
  - assert (H16 : 16 <= n).
    { destruct (N.lt_ge_cases n 16) as [Hlt|Hge]; [|exact Hge].
      exfalso. apply Hq. now apply N.div_small. }
    assert (Hlog : 4 <= N.log2 n).
    { change 4 with (N.log2 16). now apply N.log2_le_mono. }
    destruct (N.to_nat (N.log2 n)) as [|k] eqn:Hk; [lia|].
    cbn [hex_digits].
    destruct (N.eqb_spec (n / 16) 0) as [Hq'|_]; [contradiction|].
    assert (Hqq : n / 16 / 16 = 0).
    { apply N.div_small. apply N.Div0.div_lt_upper_bound. lia. }
    rewrite Hqq. cbn.
    assert (Hm : (n / 16) mod 16 = n / 16).
    { apply N.mod_small. apply N.Div0.div_lt_upper_bound. lia. }
    rewrite Hm. reflexivity.
Qed.

Lemma escape_step_app (result : list str) (c : char) :
  escape_step result c = result ++ [escaped_form c].
Proof.
  unfold escape_step, escaped_form, short_escape, is_control.
  destruct (N.eqb_spec c 92); [reflexivity|].
  destruct (N.eqb_spec c 34); [reflexivity|].
  destruct (N.eqb_spec c 10); [reflexivity|].
  destruct (N.eqb_spec c 9); [reflexivity|].
  destruct (N.eqb_spec c 13); [reflexivity|].
  destruct (N.ltb_spec c 0x20) as [Hlo|Hlo].
  - cbn [orb]. rewrite format_02x_two_digits by lia. reflexivity.
  - cbn [orb]. destruct (N.eqb_spec c 0x7F) as [->|H7f]; [reflexivity|].
    cbn [orb].
    destruct (N.leb_spec 0x80 c) as [H80|H80]; [|reflexivity].
    destruct (N.leb_spec c 0x9F) as [H9f|H9f]; [|reflexivity].
    cbn [andb]. rewrite format_02x_two_digits by lia. reflexivity.
Qed.

Lemma escape_loop (s : str) (result : list str) :
  fold_left escape_step s result = result ++ map escaped_form s.
Proof.
  revert result. induction s as [|c s IH]; intros result; cbn [fold_left map].
  - now rewrite app_nil_r.
  - rewrite IH, escape_step_app, <- app_assoc. reflexivity.
Qed.

Lemma escape_flat_map (s : str) :
  escape_for_moonbit s = flat_map escaped_form s.
Proof.
  unfold escape_for_moonbit.
  rewrite join_nil_concat, escape_loop, flat_map_concat_map. reflexivity.
Qed.

(** ** Escaping *)

Lemma is_control_false_iff (c : char) :
  is_control c = false <-> 0x20 <= c /\ c <> 0x7F /\ (c < 0x80 \/ 0x9F < c).
Proof.
  unfold is_control.
  rewrite !orb_false_iff, andb_false_iff, N.ltb_ge, N.eqb_neq, !N.leb_gt.
  tauto.
Qed.

Lemma is_control_true_bound (c : char) : is_control c = true -> c < 0xA0.
Proof.
  unfold is_control.
  rewrite !orb_true_iff, andb_true_iff, N.ltb_lt, N.eqb_eq, !N.leb_le.
  lia.
Qed.

Lemma hex_digit_printable (d : N) :
  d < 16 -> is_control (hex_digit d) = false.
Proof.
  intros Hd. apply is_control_false_iff. unfold hex_digit.
  destruct (N.ltb_spec d 10); lia.
Qed.

Lemma short_escape_printable (c : char) (e : str) :
  short_escape c = Some e -> Forall (fun x => is_control x = false) e.
Proof.
  unfold short_escape.
  repeat match goal with
         | |- context [if ?b then _ else _] => destruct b
         end;
    intros H; inversion H; subst; repeat constructor.
Qed.

Lemma escaped_form_printable (c : char) :
  Forall (fun x => is_control x = false) (escaped_form c).
Proof.
  unfold escaped_form.
  destruct (short_escape c) as [e|] eqn:Hs.
  - now apply short_escape_printable with c.
  - destruct (is_control c) eqn:Hc.
    + apply is_control_true_bound in Hc.
      unfold hex_escape.
      repeat constructor; apply hex_digit_printable.
      * apply N.Div0.div_lt_upper_bound. lia.
      * now apply N.mod_lt.
    + repeat constructor. exact Hc.
Qed.

(** C1: [escape_for_moonbit] rewrites its input character by character:
    backslash, double quote, newline, tab and carriage return become
    their short escapes; every other code point below U+0020, U+007F and
    U+0080 to U+009F becomes [\u{xx}] with its two hexadecimal digits;
    every other character is left unchanged. *)
Theorem escape_for_moonbit_characterwise (s : str) :
  escape_for_moonbit s = flat_map escaped_form s.
Proof.
  exact (escape_flat_map s).
Qed.

(** C9: the output of [escape_for_moonbit] holds no raw control
    character: no code point below U+0020, no U+007F and none in U+0080
    to U+009F. *)
Theorem escape_for_moonbit_no_control (s : str) :
  Forall (fun c => is_control c = false) (escape_for_moonbit s).
Proof.
  rewrite escape_flat_map.
  induction s as [|c s IH]; cbn [flat_map].
  - constructor.
  - apply Forall_app. split; [apply escaped_form_printable | exact IH].
Qed.

Example escape_for_moonbit_sample :
  escape_for_moonbit [65; 10; 1; 0x7F; 0x85; 92; 34; 0xE9; 0xA0]
  = lit "A\n\u{01}\u{7f}\u{85}\\\" ++ [dq; 0xE9; 0xA0].
Proof. reflexivity. Qed.

(** ** Tokenizing *)

Lemma for_append_run {A : Type} (it : iterator A) (tokens : list A) :
  for_append it tokens
  = match raised it with
    | Some e => Raise e
    | None => Return (tokens ++ yielded it)
    end.
Proof.
  revert tokens. induction it as [|a rest IH|e]; intros tokens; cbn.
  - now rewrite app_nil_r.
  - rewrite IH. destruct (raised rest); [reflexivity|].
    now rewrite <- app_assoc.
  - reflexivity.
Qed.

Lemma tokenize_html_run (HTMLTokenizer : str -> iterator token)
    (html_content : str) :
  tokenize_html HTMLTokenizer html_content
  = match raised (HTMLTokenizer html_content) with
    | Some e => Return (false, Message (str_of_exception e))
    | None => Return (true, Tokens (yielded (HTMLTokenizer html_content)))
    end.
Proof.
  unfold tokenize_html. rewrite for_append_run.
  destruct (raised (HTMLTokenizer html_content)); reflexivity.
Qed.

Lemma parse_html_to_tree_run (parse : str -> result Element)
    (html_content : str) :
  parse_html_to_tree parse html_content
  = match parse html_content with
    | Return doc => Return (true, join [newline] (element_to_str doc 0))
    | Raise e => Return (false, str_of_exception e)
    end.
Proof.
  unfold parse_html_to_tree. destruct (parse html_content); reflexivity.
Qed.

(** C2: on every input, [tokenize_html] and [parse_html_to_tree] return a
    pair to the caller and never raise: an exception of the library
    becomes the pair of [False] and its message, and a run without
    exception gives [True]. *)
Theorem tokenize_and_parse_always_return
    (HTMLTokenizer : str -> iterator token) (parse : str -> result Element)
    (html_content : str) :
  (exists r, tokenize_html HTMLTokenizer html_content = Return r
             /\ match raised (HTMLTokenizer html_content) with
                | Some e => r = (false, Message (str_of_exception e))
                | None => fst r = true
                end)
  /\ (exists r, parse_html_to_tree parse html_content = Return r
                /\ match parse html_content with
                   | Raise e => r = (false, str_of_exception e)
                   | Return _ => fst r = true
                   end).
Proof.
  split.
  - rewrite tokenize_html_run.
    destruct (raised (HTMLTokenizer html_content)) as [e|];
      eexists; split; reflexivity.
  - rewrite parse_html_to_tree_run.
    destruct (parse html_content) as [doc|e]; eexists; split; reflexivity.
Qed.

(** C4, as the code has it: when tokenization completes without an
    exception, [tokenize_html] hands the caller the whole stream the
    tokenizer yielded, in order: the tokens and, between them in the same
    list, every parse error notice; none is dropped. *)
Theorem tokenize_html_keeps_parse_errors
    (HTMLTokenizer : str -> iterator token) (html_content : str) :
  raised (HTMLTokenizer html_content) = None ->
  exists l,
    tokenize_html HTMLTokenizer html_content = Return (true, Tokens l)
    /\ l = yielded (HTMLTokenizer html_content)
    /\ filter is_parse_error l
       = filter is_parse_error (yielded (HTMLTokenizer html_content))
    /\ filter (fun t => negb (is_parse_error t)) l
       = filter (fun t => negb (is_parse_error t))
                (yielded (HTMLTokenizer html_content)).
Proof.
  intros Hrun. rewrite tokenize_html_run, Hrun.
  eexists. repeat split; reflexivity.
Qed.

(** C10: [tokenize_html] never propagates an exception: if the run raises
    it returns [False] with the message of the exception, a string and
    not a token list, and otherwise [True] with the full list of tokens
    the tokenizer produced. *)
Theorem tokenize_html_result
    (HTMLTokenizer : str -> iterator token) (html_content : str) :
  tokenize_html HTMLTokenizer html_content
  = match raised (HTMLTokenizer html_content) with
    | Some e => Return (false, Message (str_of_exception e))
    | None => Return (true, Tokens (yielded (HTMLTokenizer html_content)))
    end.
Proof.
  exact (tokenize_html_run HTMLTokenizer html_content).
Qed.

Lemma tokenize_html_keeps_parse_errors_witness :
  exists l,
    tokenize_html sample_tokenizer [97; 0; 98] = Return (true, Tokens l)
    /\ l = yielded (sample_tokenizer [97; 0; 98])
    /\ filter is_parse_error l
       = filter is_parse_error (yielded (sample_tokenizer [97; 0; 98]))
    /\ filter (fun t => negb (is_parse_error t)) l
       = filter (fun t => negb (is_parse_error t))
                (yielded (sample_tokenizer [97; 0; 98])).
Proof.
  apply (tokenize_html_keeps_parse_errors sample_tokenizer [97; 0; 98]).
  reflexivity.
Defined.

(** C4 as stated fails: a run that meets a parse error and then raises
    gives the caller [False] and the message only, so the parse error is
    not in the returned result; and the formatter gives [None] for a
    parse error notice, so it is not in the token dump either. *)
Lemma tokenize_html_drops_parse_errors :
  yielded (raising_tokenizer [0]) = [sample_token 7 (lit "invalid-codepoint")]
  /\ is_parse_error (sample_token 7 (lit "invalid-codepoint")) = true
  /\ tokenize_html raising_tokenizer [0]
     = Return (false, Message (lit "boom"))
  /\ is_parse_error named_parse_error = true
  /\ format_token_for_moonbit named_parse_error = Return None.
Proof.
  repeat split; reflexivity.
Qed.

Example tokenize_html_sample :
  tokenize_html sample_tokenizer [97; 0; 98]
  = Return (true, Tokens [sample_token 1 [97];
                          sample_token 7 (lit "invalid-codepoint");
                          sample_token 1 [0xFFFD];
                          sample_token 1 [98]]).
Proof. reflexivity. Qed.

Example tokenize_html_failure (e : Exception) (t : token) (s : str) :
  tokenize_html (fun _ => Yield t (Raising e)) s
  = Return (false, Message (exc_message e)).
Proof. reflexivity. Qed.

(** ** Formatting tokens *)

Lemma str_eqb_eq (a b : str) : str_eqb a b = true <-> a = b.
Proof.
  unfold str_eqb. destruct (list_eq_dec N.eq_dec a b); split; congruence.
Qed.

Lemma str_eqb_refl (a : str) : str_eqb a a = true.
Proof. now apply str_eqb_eq. Qed.

Lemma type_is_exclusive (t : option type_value) (a b : string) :
  type_is t a = true -> lit a <> lit b -> type_is t b = false.
Proof.
  destruct t as [[s|n]|]; cbn; try discriminate.
  intros Ha Hab. apply str_eqb_eq in Ha. subst s.
  destruct (str_eqb (lit a) (lit b)) eqn:E; [|reflexivity].
  apply str_eqb_eq in E. contradiction.
Qed.

Lemma escape_single (c : char) : escape_for_moonbit [c] = escaped_form c.
Proof.
  rewrite escape_flat_map. cbn. apply app_nil_r.
Qed.

Lemma lower_str_of_bool (b : bool) :
  lower (str_of_bool b) = if b then lit "true" else lit "false".
Proof. destruct b; reflexivity. Qed.

Lemma has_type_is (token : token) (name : string) :
  has_type token name -> type_is (tok_type token) name = true.
Proof.
  unfold has_type. intros ->. cbn. now apply str_eqb_eq.
Qed.

(** C8: the dump of a StartTag token shows the escaped tag name, the
    attributes in their order as pairs of escaped name and escaped
    value, and the self-closing flag as [true] or [false]. *)
Theorem format_start_tag (token : token) (attrs : list (str * str)) :
  has_type token "StartTag" ->
  get (tok_data token) (DataAttrs []) = DataAttrs attrs ->
  format_token_for_moonbit token
  = Return (Some
      (lit "StartTag(name=" ++ [dq]
       ++ escape_for_moonbit (get (tok_name token) []) ++ [dq]
       ++ lit ", attrs=["
       ++ join (lit ", ")
            (map (fun kv =>
                    lit "{name: " ++ [dq] ++ escape_for_moonbit (fst kv)
                    ++ [dq] ++ lit ", value: " ++ [dq]
                    ++ escape_for_moonbit (snd kv) ++ [dq] ++ lit "}")
                 attrs)
       ++ lit "], self_closing="
       ++ (if get (tok_selfClosing token) false
           then lit "true" else lit "false")
       ++ lit ")")).
Proof.
  intros Ht Hd. unfold format_token_for_moonbit.
  rewrite (has_type_is _ _ Ht), Hd. cbn [items bind].
  rewrite lower_str_of_bool. reflexivity.
Qed.

(** C7: the dump of a Characters or SpaceCharacters token whose data has
    [n] code points is the list of exactly [n] entries [Character('c')],
    one for each code point of the data, in order, joined by commas. *)
Theorem format_characters (token : token) (data : str) :
  has_type token "Characters" \/ has_type token "SpaceCharacters" ->
  get (tok_data token) (DataText []) = DataText data ->
  exists entries : list str,
    format_token_for_moonbit token = Return (Some (join (lit ", ") entries))
    /\ length entries = length data
    /\ forall i c, nth_error data i = Some c ->
         nth_error entries i
         = Some (lit "Character('" ++ escaped_form c ++ lit "')").
Proof.
  intros Ht Hd.
  exists (map (fun c => lit "Character('" ++ escaped_form c ++ lit "')") data).
  split; [|split].
  - unfold format_token_for_moonbit.
    assert (Hs : type_is (tok_type token) "StartTag" = false).
    { destruct Ht as [Ht|Ht]; apply has_type_is in Ht;
        apply (type_is_exclusive _ _ _ Ht); discriminate. }
    assert (He : type_is (tok_type token) "EndTag" = false).
    { destruct Ht as [Ht|Ht]; apply has_type_is in Ht;
        apply (type_is_exclusive _ _ _ Ht); discriminate. }
    assert (Hc : type_is (tok_type token) "Characters"
                 || type_is (tok_type token) "SpaceCharacters" = true).
    { apply orb_true_iff.
      destruct Ht as [Ht|Ht]; apply has_type_is in Ht; auto. }
    rewrite Hs, He, Hc, Hd. cbn [chars_of bind].
    do 3 f_equal. apply map_ext. intros c. now rewrite escape_single.
  - apply length_map.
  - intros i c Hi. rewrite nth_error_map, Hi. reflexivity.
Qed.

(** C6: the dump of a Doctype token does not follow the token: the token
    with the force-quirks flag set is dumped with [force_quirks=false],
    and a public identifier that is present but empty is dumped as
    [None]. *)
Theorem format_doctype_ignores_force_quirks :
  tok_correct doctype_force_quirks = Some false
  /\ format_token_for_moonbit doctype_force_quirks
     = Return (Some (lit "DOCTYPE(name=Some(" ++ [dq] ++ lit "html" ++ [dq]
                     ++ lit "), public_id=None, system_id=None, "
                     ++ lit "force_quirks=false)"))
  /\ tok_publicId doctype_empty_public = Some []
  /\ format_token_for_moonbit doctype_empty_public
     = Return (Some (lit "DOCTYPE(name=Some(" ++ [dq] ++ lit "html" ++ [dq]
                     ++ lit "), public_id=None, system_id=None, "
                     ++ lit "force_quirks=false)")).
Proof.
  repeat split; vm_compute; reflexivity.
Qed.

Lemma format_start_tag_witness :
  format_token_for_moonbit sample_start_tag
  = Return (Some
      (lit "StartTag(name=" ++ [dq]
       ++ escape_for_moonbit (get (tok_name sample_start_tag) []) ++ [dq]
       ++ lit ", attrs=["
       ++ join (lit ", ")
            (map (fun kv =>
                    lit "{name: " ++ [dq] ++ escape_for_moonbit (fst kv)
                    ++ [dq] ++ lit ", value: " ++ [dq]
                    ++ escape_for_moonbit (snd kv) ++ [dq] ++ lit "}")
                 [(lit "href", [120; dq; 121])])
       ++ lit "], self_closing="
       ++ (if get (tok_selfClosing sample_start_tag) false
           then lit "true" else lit "false")
       ++ lit ")")).
Proof.
  apply (format_start_tag sample_start_tag [(lit "href", [120; dq; 121])]);
    reflexivity.
Defined.

Example format_start_tag_sample :
  format_token_for_moonbit sample_start_tag
  = Return (Some (lit "StartTag(name=" ++ [dq] ++ lit "a" ++ [dq]
                  ++ lit ", attrs=[{name: " ++ [dq] ++ lit "href" ++ [dq]
                  ++ lit ", value: " ++ [dq] ++ lit "x\" ++ [dq] ++ lit "y"
                  ++ [dq] ++ lit "}], self_closing=true)")).
Proof. vm_compute. reflexivity. Qed.

Lemma format_characters_witness :
  exists entries : list str,
    format_token_for_moonbit sample_characters
    = Return (Some (join (lit ", ") entries))
    /\ length entries = length [97; 10]
    /\ forall i c, nth_error [97; 10] i = Some c ->
         nth_error entries i
         = Some (lit "Character('" ++ escaped_form c ++ lit "')").
Proof.
  apply (format_characters sample_characters [97; 10]).
  - left. reflexivity.
  - reflexivity.
Defined.

Example format_characters_sample :
  format_token_for_moonbit sample_characters
  = Return (Some (lit "Character('a'), Character('\n')")).
Proof. vm_compute. reflexivity. Qed.

Example format_parse_error_skipped (data : option data_value) :
  format_token_for_moonbit
    (mkToken (Some (TypeName (lit "ParseError"))) None data
             None None None None)
  = Return None.
Proof. reflexivity. Qed.

(** ** The order of [sorted] *)

Lemma str_ltb_irrefl (a : str) : str_ltb a a = false.
Proof.
  induction a as [|x a IH]; cbn; [reflexivity|].
  now rewrite N.ltb_irrefl.
Qed.

Lemma str_ltb_asym (a b : str) : str_ltb a b = true -> str_ltb b a = false.
Proof.
  revert b. induction a as [|x a IH]; intros [|y b]; cbn; try congruence.
  destruct (N.ltb_spec x y), (N.ltb_spec y x); try congruence; try lia.
  apply IH.
Qed.

Lemma str_le_antisym (a b : str) : str_le a b -> str_le b a -> a = b.
Proof.
  unfold str_le. revert b.
  induction a as [|x a IH]; intros [|y b]; cbn; try congruence.
  destruct (N.ltb_spec x y), (N.ltb_spec y x); try congruence; try lia.
  intros Hba Hab. f_equal; [lia | now apply IH].
Qed.

Lemma str_le_trans (a b c : str) : str_le a b -> str_le b c -> str_le a c.
Proof.
  unfold str_le. revert b c.
  induction a as [|x a IH]; intros [|y b] [|z c]; cbn; try congruence.
  destruct (N.ltb_spec y x), (N.ltb_spec x y), (N.ltb_spec z y),
    (N.ltb_spec y z), (N.ltb_spec z x), (N.ltb_spec x z);
    try congruence; try lia.
  apply IH.
Qed.

Lemma item_le_key_le (p q : str * str) : item_le p q -> key_le p q.
Proof.
  unfold item_le, key_le, str_le, item_ltb.
  destruct (str_eqb (fst q) (fst p)) eqn:E; [|tauto].
  apply str_eqb_eq in E. rewrite E. intros _. apply str_ltb_irrefl.
Qed.

Lemma item_ltb_asym (p q : str * str) :
  item_ltb p q = true -> item_le p q.
Proof.
  unfold item_le, item_ltb.
  destruct (str_eqb (fst p) (fst q)) eqn:E.
  - apply str_eqb_eq in E. rewrite E.
    rewrite str_eqb_refl.
    apply str_ltb_asym.
  - destruct (str_eqb (fst q) (fst p)) eqn:E'.
    + apply str_eqb_eq in E'. symmetry in E'. apply str_eqb_eq in E'.
      congruence.
    + apply str_ltb_asym.
Qed.

Lemma item_le_antisym (p q : str * str) : item_le p q -> item_le q p -> p = q.
Proof.
  unfold item_le, item_ltb. destruct p as [k v], q as [k' v']; cbn.
  destruct (str_eqb k' k) eqn:E.
  - apply str_eqb_eq in E. subst k'.
    rewrite str_eqb_refl.
    intros H1 H2. f_equal. now apply str_le_antisym.
  - destruct (str_eqb k k') eqn:E'.
    + apply str_eqb_eq in E'. symmetry in E'. apply str_eqb_eq in E'.
      congruence.
    + intros H1 H2. assert (k = k') by now apply str_le_antisym.
      subst. rewrite str_eqb_refl in E. discriminate.
Qed.

Lemma item_le_refl (p : str * str) : item_le p p.
Proof.
  unfold item_le, item_ltb. rewrite str_eqb_refl. apply str_ltb_irrefl.
Qed.

Lemma item_le_trans (p q r : str * str) :
  item_le p q -> item_le q r -> item_le p r.
Proof.
  unfold item_le, item_ltb.
  destruct p as [k1 v1], q as [k2 v2], r as [k3 v3]; cbn.
  destruct (str_eqb k2 k1) eqn:E21.
  - apply str_eqb_eq in E21. subst k2.
    destruct (str_eqb k3 k1) eqn:E31; [|tauto].
    apply (str_le_trans v1 v2 v3).
  - destruct (str_eqb k3 k2) eqn:E32.
    + apply str_eqb_eq in E32. subst k3. rewrite E21. tauto.
    + intros H12 H23.
      assert (H13 : str_le k1 k3) by exact (str_le_trans k1 k2 k3 H12 H23).
      destruct (str_eqb k3 k1) eqn:E31; [|exact H13].
      apply str_eqb_eq in E31. subst k3.
      assert (k1 = k2) by (apply str_le_antisym; assumption).
      subst k2. rewrite str_eqb_refl in E21. discriminate.
Qed.

Lemma insert_sorted_perm (x : str * str) (l : list (str * str)) :
  Permutation (x :: l) (insert_sorted x l).
Proof.
  induction l as [|y l IH]; cbn; [reflexivity|].
  destruct (item_ltb y x); [|reflexivity].
  rewrite perm_swap. now constructor.
Qed.

Lemma sorted_perm (l : list (str * str)) : Permutation l (sorted l).
Proof.
  induction l as [|x l IH]; cbn; [constructor|].
  rewrite <- insert_sorted_perm. now constructor.
Qed.

Lemma insert_sorted_ordered (x : str * str) (l : list (str * str)) :
  StronglySorted item_le l -> StronglySorted item_le (insert_sorted x l).
Proof.
  induction 1 as [|y l Hs IH Hy]; cbn.
  - repeat constructor.
  - destruct (item_ltb y x) eqn:E.
    + constructor; [exact IH|].
      apply (Permutation_Forall (insert_sorted_perm x l)).
      constructor; [now apply item_ltb_asym | exact Hy].
    + constructor; [now constructor|].
      constructor; [exact E|].
      eapply Forall_impl; [|exact Hy].
      intros z Hz. now apply item_le_trans with y.
Qed.

Lemma sorted_ordered (l : list (str * str)) : StronglySorted item_le (sorted l).
Proof.
  induction l as [|x l IH]; cbn; [constructor|].
  now apply insert_sorted_ordered.
Qed.

Lemma StronglySorted_impl {A : Type} (R S : A -> A -> Prop) (l : list A) :
  (forall a b, R a b -> S a b) -> StronglySorted R l -> StronglySorted S l.
Proof.
  intros HRS. induction 1 as [|x l Hs IH Hx]; constructor; [exact IH|].
  eapply Forall_impl; [|exact Hx]. intros b. apply HRS.
Qed.

Lemma sorted_by_key (l : list (str * str)) : StronglySorted key_le (sorted l).
Proof.
  apply StronglySorted_impl with item_le;
    [exact item_le_key_le | apply sorted_ordered].
Qed.

(** The order leaves one choice: every ordered arrangement of the items
    is the one [sorted] gives, whatever algorithm found it. *)
Lemma ordered_perm_unique (l l' : list (str * str)) :
  StronglySorted item_le l -> StronglySorted item_le l' ->
  Permutation l l' -> l = l'.
Proof.
  intros Hl. revert l'.
  induction Hl as [|x l Hs IH Hx]; intros l' Hl' Hp.
  - now apply Permutation_nil in Hp.
  - destruct Hl' as [|y l' Hs' Hy].
    + apply Permutation_sym, Permutation_nil in Hp. discriminate.
    + assert (Hxy : x = y).
      { apply item_le_antisym.
        - assert (Hin : In y (x :: l))
            by (apply (Permutation_in _ (Permutation_sym Hp)); now left).
          destruct Hin as [->|Hin]; [apply item_le_refl|].
          rewrite Forall_forall in Hx. now apply Hx.
        - assert (Hin : In x (y :: l'))
            by (apply (Permutation_in _ Hp); now left).
          destruct Hin as [->|Hin]; [apply item_le_refl|].
          rewrite Forall_forall in Hy. now apply Hy. }
      subst y. f_equal. apply IH; [exact Hs'|].
      now apply Permutation_cons_inv with x.
Qed.

Lemma sorted_unique (l l' : list (str * str)) :
  Permutation l l' -> StronglySorted item_le l' -> l' = sorted l.
Proof.
  intros Hp Hs. apply ordered_perm_unique; [exact Hs | apply sorted_ordered|].
  rewrite <- Hp. apply sorted_perm.
Qed.

(** ** The tree dump *)

(** Where [split] is indexed at 1 there are at least two pieces. *)
Lemma split_from_nonempty (sep : char) (s cur : str) :
  split_from sep s cur <> [].
Proof.
  revert cur. induction s as [|c s IH]; intros cur; cbn; [discriminate|].
  destruct (c =? sep); [discriminate | apply IH].
Qed.

Lemma split_length (sep : char) (s : str) :
  contains sep s = true -> (2 <= length (split sep s))%nat.
Proof.
  unfold split. generalize (@nil char) as cur.
  induction s as [|c s IH]; intros cur; cbn; [discriminate|].
  rewrite (N.eqb_sym sep c).
  destruct (c =? sep); cbn.
  - intros _. pose proof (split_from_nonempty sep s []) as Hne.
    destruct (split_from sep s []); [contradiction | cbn; lia].
  - apply IH.
Qed.

Lemma fold_left_append {A B : Type} (step : list B -> A -> list B)
    (f : A -> list B) (l : list A) (acc : list B) :
  (forall lines a, step lines a = lines ++ f a) ->
  fold_left step l acc = acc ++ flat_map f l.
Proof.
  intros Hstep. revert acc.
  induction l as [|a l IH]; intros acc; cbn.
  - now rewrite app_nil_r.
  - rewrite IH, Hstep, <- app_assoc. reflexivity.
Qed.

Lemma element_to_str_parts (elem : Element) (indent : nat) :
  element_to_str elem indent
  = [tag_line elem indent] ++ attr_lines elem indent
    ++ payload_lines indent (text elem)
    ++ flat_map (fun child => element_to_str child (indent + 1)
                              ++ payload_lines indent (tail child))
                (children elem).
Proof.
  destruct elem as [tg at_ tx tl ch].
  cbn [element_to_str].
  rewrite fold_left_append
    with (f := fun child => element_to_str child (indent + 1)
                            ++ payload_lines indent (tail child)).
  - unfold attr_lines, payload_lines, tag_line, prefix_of.
    cbn [attrib text children app].
    destruct at_ as [|kv at_]; destruct (truthy tx);
      cbn [sorted map app]; rewrite <- ?app_assoc; reflexivity.
  - intros lines child. unfold payload_lines, prefix_of.
    destruct (truthy (tail child)).
    + now rewrite <- app_assoc.
    + now rewrite app_nil_r.
Qed.

Lemma rendered_in_dump (root e : Element) (k : nat) :
  rendered_in root k e ->
  forall indent, exists pre post,
    element_to_str root indent
    = pre ++ element_to_str e (k + indent) ++ post.
Proof.
  induction 1 as [|k e c Hr IH Hin]; intros indent.
  - exists [], []. cbn. now rewrite app_nil_r.
  - destruct (IH indent) as (pre & post & Heq).
    apply in_split in Hin. destruct Hin as (l1 & l2 & Hch).
    rewrite Heq, (element_to_str_parts e (k + indent)), Hch.
    rewrite flat_map_app. cbn [flat_map].
    replace (k + indent + 1)%nat with (S k + indent)%nat by lia.
    set (f := fun child : Element =>
                element_to_str child (S k + indent)
                ++ payload_lines (k + indent) (tail child)).
    exists (pre ++ [tag_line e (k + indent)] ++ attr_lines e (k + indent)
            ++ payload_lines (k + indent) (text e) ++ flat_map f l1),
           (payload_lines (k + indent) (tail c) ++ flat_map f l2 ++ post).
    repeat rewrite <- app_assoc. reflexivity.
Qed.

Lemma sample_b_rendered : rendered_in sample_doc 2 sample_b.
Proof.
  apply rendered_child with sample_body.
  - apply rendered_child with sample_doc.
    + apply rendered_root.
    + right. left. reflexivity.
  - left. reflexivity.
Defined.

Example sample_doc_dump :
  element_to_str sample_doc 0
  = [ lit "<html>";
      lit "| <head>";
      lit "| <body>";
      lit "| | <b>";
      lit "| |   class=" ++ [dq] ++ lit "c" ++ [dq];
      lit "| |   id=" ++ [dq] ++ lit "x" ++ [dq];
      lit "| |   " ++ [dq] ++ lit "a\b" ++ [dq];
      lit "|   " ++ [dq] ++ lit "t" ++ [dq] ].
Proof. vm_compute. reflexivity. Qed.

(** C5: every element the dump renders has, right after its tag line,
    one line per attribute showing name and value, and these lines are
    in ascending order of the attribute names. *)
Theorem attributes_sorted_by_name
    (root e : Element) (k indent : nat) :
  rendered_in root k e ->
  exists (its : list (str * str)) (pre post : list str),
    Permutation (attrib e) its
    /\ StronglySorted key_le its
    /\ element_to_str root indent
       = pre ++ [tag_line e (k + indent)]
         ++ map (fun kv => prefix_of (k + indent) ++ lit "  " ++ fst kv
                           ++ lit "=" ++ [dq] ++ snd kv ++ [dq]) its
         ++ post.
Proof.
  intros Hr.
  destruct (rendered_in_dump root e k Hr indent) as (pre & post & Heq).
  exists (sorted (attrib e)), pre.
  eexists. split; [apply sorted_perm|]. split; [apply sorted_by_key|].
  rewrite Heq, element_to_str_parts. unfold attr_lines, attr_line.
  repeat rewrite <- app_assoc. reflexivity.
Qed.

Lemma attributes_sorted_by_name_witness :
  exists (its : list (str * str)) (pre post : list str),
    Permutation (attrib sample_b) its
    /\ StronglySorted key_le its
    /\ element_to_str sample_doc 0
       = pre ++ [tag_line sample_b (2 + 0)]
         ++ map (fun kv => prefix_of (2 + 0) ++ lit "  " ++ fst kv
                           ++ lit "=" ++ [dq] ++ snd kv ++ [dq]) its
         ++ post.
Proof.
  exact (attributes_sorted_by_name sample_doc sample_b 2 0 sample_b_rendered).
Defined.

(** C3, as the code has it: the text of a rendered element is printed
    after its attribute lines, and the tail of a child after the child's
    lines, each between double quotes exactly as it is, with no escaping
    applied. *)
Theorem text_lines_are_raw (root e : Element) (k indent : nat) :
  rendered_in root k e ->
  (forall t, text e = Some t -> t <> [] ->
     exists pre post,
       element_to_str root indent
       = pre ++ [tag_line e (k + indent)] ++ attr_lines e (k + indent)
         ++ [prefix_of (k + indent) ++ lit "  " ++ [dq] ++ t ++ [dq]]
         ++ post)
  /\ (forall c t, In c (children e) -> tail c = Some t -> t <> [] ->
        exists pre post,
          element_to_str root indent
          = pre ++ element_to_str c (S k + indent)
            ++ [prefix_of (k + indent) ++ lit "  " ++ [dq] ++ t ++ [dq]]
            ++ post).
Proof.
  intros Hr.
  destruct (rendered_in_dump root e k Hr indent) as (pre & post & Heq).
  split.
  - intros t Ht Hne. exists pre. eexists.
    rewrite Heq, element_to_str_parts. unfold payload_lines at 1.
    rewrite Ht. destruct t as [|x t]; [contradiction|].
    cbn [truthy get]. unfold quoted_line.
    repeat rewrite <- app_assoc. reflexivity.
  - intros c t Hin Ht Hne.
    apply in_split in Hin. destruct Hin as (l1 & l2 & Hch).
    rewrite Heq, element_to_str_parts, Hch, flat_map_app. cbn [flat_map].
    unfold payload_lines at 2. rewrite Ht.
    destruct t as [|x t]; [contradiction|]. cbn [truthy get].
    unfold quoted_line.
    replace (k + indent + 1)%nat with (S k + indent)%nat by lia.
    eexists (pre ++ [tag_line e (k + indent)] ++ attr_lines e (k + indent)
             ++ payload_lines (k + indent) (text e) ++ flat_map _ l1).
    eexists (flat_map _ l2 ++ post).
    repeat rewrite <- app_assoc. reflexivity.
Qed.

Lemma text_lines_are_raw_witness :
  (exists pre post,
     element_to_str sample_doc 0
     = pre ++ [tag_line sample_b (2 + 0)] ++ attr_lines sample_b (2 + 0)
       ++ [prefix_of (2 + 0) ++ lit "  " ++ [dq] ++ [97; 92; 98] ++ [dq]]
       ++ post)
  /\ (exists pre post,
        element_to_str sample_doc 0
        = pre ++ element_to_str sample_b (S 1 + 0)
          ++ [prefix_of (1 + 0) ++ lit "  " ++ [dq] ++ lit "t" ++ [dq]]
          ++ post).
Proof.
  split.
  - apply (proj1 (text_lines_are_raw sample_doc sample_b 2 0
                    sample_b_rendered)).
    + reflexivity.
    + discriminate.
  - assert (Hbody : rendered_in sample_doc 1 sample_body).
    { apply rendered_child with sample_doc;
        [apply rendered_root | right; left; reflexivity]. }
    apply (proj2 (text_lines_are_raw sample_doc sample_body 1 0 Hbody)).
    + left. reflexivity.
    + reflexivity.
    + discriminate.
Defined.

(** C3 as stated fails: the text [a\b] of the rendered element [b] is in
    the dump as it is, and the line with the escaped text [a\\b] is not
    in the dump. *)
Lemma text_line_not_escaped :
  rendered_in sample_doc 2 sample_b
  /\ text sample_b = Some [97; 92; 98]
  /\ escape_for_moonbit [97; 92; 98] = [97; 92; 92; 98]
  /\ In (prefix_of 2 ++ lit "  " ++ [dq] ++ [97; 92; 98] ++ [dq])
        (element_to_str sample_doc 0)
  /\ ~ In (prefix_of 2 ++ lit "  " ++ [dq]
           ++ escape_for_moonbit [97; 92; 98] ++ [dq])
          (element_to_str sample_doc 0).
Proof.
  split; [exact sample_b_rendered|].
  split; [reflexivity|]. split; [reflexivity|]. split.
  - vm_compute. do 6 right. left. reflexivity.
  - vm_compute. intros H.
    repeat (destruct H as [H|H]; [discriminate H|]). exact H.
Qed.

Example parse_html_to_tree_sample (html_content : str) :
  parse_html_to_tree (fun _ => Return sample_doc) html_content
  = Return (true,
            lit "<html>" ++ [10] ++ lit "| <head>" ++ [10]
            ++ lit "| <body>" ++ [10] ++ lit "| | <b>" ++ [10]
            ++ lit "| |   class=" ++ [dq] ++ lit "c" ++ [dq] ++ [10]
            ++ lit "| |   id=" ++ [dq] ++ lit "x" ++ [dq] ++ [10]
            ++ lit "| |   " ++ [dq] ++ lit "a\b" ++ [dq] ++ [10]
            ++ lit "|   " ++ [dq] ++ lit "t" ++ [dq]).
Proof. vm_compute. reflexivity. Qed.

(** * Further properties *)

(** ** Escaping *)

Lemma escape_app (a b : str) :
  escape_for_moonbit (a ++ b) = escape_for_moonbit a ++ escape_for_moonbit b.
Proof.
  rewrite !escape_flat_map. apply flat_map_app.
Qed.

Lemma hex_value_hex_digit (d : N) : d < 16 -> hex_value (hex_digit d) = Some d.
Proof.
  intros Hd. unfold hex_value, hex_digit.
  destruct (N.ltb_spec d 10) as [H|H].
  - replace ((48 <=? 48 + d) && (48 + d <=? 57)) with true.
    + f_equal. lia.
    + symmetry. apply andb_true_iff. split; apply N.leb_le; lia.
  - replace ((48 <=? 87 + d) && (87 + d <=? 57)) with false.
    + replace ((97 <=? 87 + d) && (87 + d <=? 102)) with true.
      * f_equal. lia.
      * symmetry. apply andb_true_iff. split; apply N.leb_le; lia.
    + symmetry. apply andb_false_iff. right. apply N.leb_gt. lia.
Qed.

Lemma unescape_plain (c : char) (r : str) :
  c <> 92 -> unescape (c :: r) = c :: unescape r.
Proof.
  intros Hc. cbn [unescape].
  destruct (N.eqb_spec c 92); [contradiction | reflexivity].
Qed.

Lemma unescape_escaped_form (c : char) (r : str) :
  unescape (escaped_form c ++ r) = c :: unescape r.
Proof.
  unfold escaped_form, short_escape.
  destruct (N.eqb_spec c 92) as [->|H92]; [reflexivity|].
  destruct (N.eqb_spec c 34) as [->|H34]; [reflexivity|].
  destruct (N.eqb_spec c 10) as [->|H10]; [reflexivity|].
  destruct (N.eqb_spec c 9) as [->|H9]; [reflexivity|].
  destruct (N.eqb_spec c 13) as [->|H13]; [reflexivity|].
  destruct (is_control c) eqn:Hc.
  - apply is_control_true_bound in Hc.
    unfold hex_escape.
    change ([92; 117; 123; hex_digit (c / 16); hex_digit (c mod 16); 125]
            ++ r)
      with (92 :: 117 :: 123 :: hex_digit (c / 16) :: hex_digit (c mod 16)
            :: 125 :: r).
    cbn [unescape].
    change (92 =? 92) with true. change (117 =? 92) with false.
    change (117 =? 34) with false. change (117 =? 110) with false.
    change (117 =? 116) with false. change (117 =? 114) with false.
    cbv iota.
    rewrite !hex_value_hex_digit
      by (first [apply N.Div0.div_lt_upper_bound; lia | now apply N.mod_lt]).
    change ((117 =? 117) && (123 =? 123) && (125 =? 125)) with true.
    cbv iota. f_equal.
    rewrite (N.div_mod c 16) at 3 by lia. reflexivity.
  - cbn [app]. now apply unescape_plain.
Qed.

Lemma unescape_flat_map (s : str) : unescape (flat_map escaped_form s) = s.
Proof.
  induction s as [|c s IH]; [reflexivity|].
  cbn [flat_map]. rewrite unescape_escaped_form, IH. reflexivity.
Qed.

(** X1: reading the escapes back gives the input: the short escapes and
    the forms [\u{xx}] of the output stand for exactly the characters of
    the original string, in order. *)
Theorem unescape_escape_for_moonbit (s : str) :
  unescape (escape_for_moonbit s) = s.
Proof.
  rewrite escape_flat_map. apply unescape_flat_map.
Qed.

(** X2: escaping loses nothing: two strings with the same escaped text
    are the same string. *)
Theorem escape_for_moonbit_injective (a b : str) :
  escape_for_moonbit a = escape_for_moonbit b -> a = b.
Proof.
  rewrite !escape_flat_map. intros H.
  rewrite <- (unescape_flat_map a), <- (unescape_flat_map b).
  now rewrite H.
Qed.

Lemma escape_for_moonbit_injective_witness : [65; 10] = [65; 10].
Proof.
  apply (escape_for_moonbit_injective [65; 10] [65; 10]). reflexivity.
Defined.

(** X3: escaping a concatenation is concatenating the escapes: the
    pieces of a string can be escaped one by one. *)
Theorem escape_for_moonbit_app (a b : str) :
  escape_for_moonbit (a ++ b) = escape_for_moonbit a ++ escape_for_moonbit b.
Proof.
  exact (escape_app a b).
Qed.

Lemma escaped_form_length (c : char) :
  (1 <= length (escaped_form c) <= 6)%nat.
Proof.
  unfold escaped_form, short_escape.
  repeat match goal with
         | |- context [if ?b then _ else _] => destruct b
         end; cbn; lia.
Qed.

Lemma flat_map_escaped_length (s : str) :
  (length s <= length (flat_map escaped_form s) <= 6 * length s)%nat.
Proof.
  induction s as [|c s IH]; cbn [flat_map length]; [lia|].
  rewrite length_app. pose proof (escaped_form_length c). lia.
Qed.

(** X4: the escaped text is at least as long as the input and at most
    six times as long. *)
Theorem escape_for_moonbit_length (s : str) :
  (length s <= length (escape_for_moonbit s) <= 6 * length s)%nat.
Proof.
  rewrite escape_flat_map. apply flat_map_escaped_length.
Qed.

Lemma escaped_form_plain (c : char) :
  is_special c = false -> escaped_form c = [c].
Proof.
  unfold is_special, escaped_form, short_escape.
  rewrite !orb_false_iff. intros [[H92 H34] Hc].
  rewrite H92, H34, Hc.
  assert (H10 : (c =? 10) = false).
  { apply N.eqb_neq. intros ->. discriminate Hc. }
  assert (H9 : (c =? 9) = false).
  { apply N.eqb_neq. intros ->. discriminate Hc. }
  assert (H13 : (c =? 13) = false).
  { apply N.eqb_neq. intros ->. discriminate Hc. }
  now rewrite H10, H9, H13.
Qed.

Lemma escaped_form_special (c : char) :
  is_special c = true ->
  exists e r, escaped_form c = 92 :: e :: r.
Proof.
  unfold is_special, escaped_form, short_escape, hex_escape.
  destruct (c =? 92); [eauto|]. destruct (c =? 34); [eauto|].
  destruct (c =? 10); [eauto|]. destruct (c =? 9); [eauto|].
  destruct (c =? 13); [eauto|]. cbn [orb]. intros ->. eauto.
Qed.

(** X5: the strings that escaping leaves as they are are exactly those
    without a backslash, a double quote or a control character; in
    particular every character from U+00A0 on is copied as it is. *)
Theorem escape_for_moonbit_fixed_points (s : str) :
  escape_for_moonbit s = s <-> Forall (fun c => is_special c = false) s.
Proof.
  rewrite escape_flat_map. split.
  - induction s as [|c s IH]; intros H; [constructor|].
    cbn [flat_map] in H.
    destruct (is_special c) eqn:Hc.
    + exfalso. destruct (escaped_form_special c Hc) as (e & r & He).
      rewrite He in H. cbn [app] in H. injection H as H1 H2.
      pose proof (flat_map_escaped_length s) as Hl.
      apply (f_equal (@length _)) in H2. cbn [length] in H2.
      rewrite length_app in H2. lia.
    + rewrite (escaped_form_plain c Hc) in H. cbn [app] in H.
      injection H as H. constructor; [exact Hc | now apply IH].
  - induction 1 as [|c s Hc Hs IH]; [reflexivity|].
    cbn [flat_map]. rewrite (escaped_form_plain c Hc), IH. reflexivity.
Qed.

Lemma hex_digit_ascii (d : N) : d < 16 -> 32 <= hex_digit d < 127.
Proof.
  intros Hd. unfold hex_digit. destruct (N.ltb_spec d 10); lia.
Qed.

Lemma escaped_form_ascii (c : char) :
  c < 128 -> Forall (fun x => 32 <= x < 127) (escaped_form c).
Proof.
  intros Hc. unfold escaped_form.
  destruct (short_escape c) as [e|] eqn:Hs.
  - unfold short_escape in Hs.
    repeat match type of Hs with
           | (if ?b then _ else _) = _ => destruct b
           end;
      inversion Hs; subst; repeat constructor; lia.
  - destruct (is_control c) eqn:Hctl.
    + apply is_control_true_bound in Hctl. unfold hex_escape.
      assert (H1 : 32 <= hex_digit (c / 16) < 127).
      { apply hex_digit_ascii. apply N.Div0.div_lt_upper_bound. lia. }
      assert (H2 : 32 <= hex_digit (c mod 16) < 127).
      { apply hex_digit_ascii. now apply N.mod_lt. }
      repeat (apply Forall_cons; [first [exact H1 | exact H2 | lia]|]).
      apply Forall_nil.
    + apply is_control_false_iff in Hctl.
      apply Forall_cons; [lia | apply Forall_nil].
Qed.

(** X6: for an input of ASCII characters the escaped text consists of
    printable ASCII characters only (U+0020 to U+007E). *)
Theorem escape_for_moonbit_ascii (s : str) :
  Forall (fun c => c < 128) s ->
  Forall (fun c => 32 <= c < 127) (escape_for_moonbit s).
Proof.
  rewrite escape_flat_map.
  induction 1 as [|c s Hc Hs IH]; cbn [flat_map]; [constructor|].
  apply Forall_app. split; [now apply escaped_form_ascii | exact IH].
Qed.

Lemma escape_for_moonbit_ascii_witness :
  Forall (fun c => 32 <= c < 127) (escape_for_moonbit [65; 10; 127]).
Proof.
  apply (escape_for_moonbit_ascii [65; 10; 127]).
  repeat constructor; lia.
Defined.

(** ** Formatting tokens *)

Lemma escape_printable (s : str) :
  Forall (fun c => is_control c = false) (escape_for_moonbit s).
Proof.
  rewrite escape_flat_map.
  induction s as [|c s IH]; cbn [flat_map]; [constructor|].
  apply Forall_app. split; [apply escaped_form_printable | exact IH].
Qed.

Lemma printable_forallb (s : str) :
  forallb (fun c => negb (is_control c)) s = true ->
  Forall (fun c => is_control c = false) s.
Proof.
  rewrite forallb_forall, Forall_forall. intros H c Hc.
  apply negb_true_iff. now apply H.
Qed.

Lemma printable_join (sep : str) (parts : list str) :
  Forall (fun c => is_control c = false) sep ->
  Forall (Forall (fun c => is_control c = false)) parts ->
  Forall (fun c => is_control c = false) (join sep parts).
Proof.
  intros Hsep. induction 1 as [|p ps Hp Hps IH]; [constructor|].
  destruct ps as [|q qs]; [exact Hp|].
  change (join sep (p :: q :: qs)) with (p ++ sep ++ join sep (q :: qs)).
  repeat (apply Forall_app; split); assumption.
Qed.

Lemma printable_map_join {A : Type} (sep : str) (f : A -> str) (l : list A) :
  Forall (fun c => is_control c = false) sep ->
  (forall a, Forall (fun c => is_control c = false) (f a)) ->
  Forall (fun c => is_control c = false) (join sep (map f l)).
Proof.
  intros Hsep Hf. apply printable_join; [exact Hsep|].
  apply Forall_forall. intros p Hp. apply in_map_iff in Hp.
  destruct Hp as (a & <- & _). apply Hf.
Qed.

Ltac printable :=
  repeat first
    [ apply Forall_nil
    | apply Forall_cons; [reflexivity|]
    | apply Forall_app; split
    | apply escape_printable
    | apply escaped_form_printable
    | apply printable_map_join; [|intros ?]
    | match goal with
      | |- Forall _ (if ?b then _ else _) => destruct b
      | |- Forall _ (lit _) => apply printable_forallb; reflexivity
      | |- Forall _ (format_attr _) => unfold format_attr
      end ].

Lemma format_optional_printable (field : option str) :
  Forall (fun c => is_control c = false) (format_optional field).
Proof.
  destruct field as [[|c s]|]; cbn [format_optional]; printable.
Qed.

Lemma is_rendered_cases (t : option type_value) :
  is_rendered t
  = type_is t "StartTag" || (type_is t "EndTag" || (type_is t "Characters"
    || (type_is t "SpaceCharacters" || (type_is t "Comment"
    || (type_is t "Doctype" || false))))).
Proof. reflexivity. Qed.

(** X7: the function gives [None] exactly for the tokens whose type is
    none of StartTag, EndTag, Characters, SpaceCharacters, Comment and
    Doctype: a parse error notice, an unknown name, a missing type, and
    every token whose type is an integer code, which is how html5lib's
    tokenizer marks its tokens. *)
Theorem format_token_none_iff (token : token) :
  format_token_for_moonbit token = Return None
  <-> is_rendered (tok_type token) = false.
Proof.
  rewrite is_rendered_cases. unfold format_token_for_moonbit.
  destruct (type_is (tok_type token) "StartTag").
  { cbn [orb]. split; [|discriminate].
    destruct (items _); cbn [bind]; discriminate. }
  destruct (type_is (tok_type token) "EndTag").
  { cbn [orb]. split; discriminate. }
  destruct (type_is (tok_type token) "Characters").
  { cbn [orb]. split; [|discriminate].
    destruct (chars_of _); cbn [bind]; discriminate. }
  destruct (type_is (tok_type token) "SpaceCharacters").
  { cbn [orb]. split; [|discriminate].
    destruct (chars_of _); cbn [bind]; discriminate. }
  destruct (type_is (tok_type token) "Comment").
  { cbn [orb]. split; [|discriminate].
    destruct (chars_of _); cbn [bind]; discriminate. }
  destruct (type_is (tok_type token) "Doctype").
  { cbn [orb]. split; discriminate. }
  cbn [orb]. destruct (type_is (tok_type token) "ParseError"); tauto.
Qed.

(** X8: a dump entry holds no raw control character, so no newline:
    whatever the token carries, its entry stays on one line. *)
Theorem format_token_no_control (token : token) (s : str) :
  format_token_for_moonbit token = Return (Some s) ->
  Forall (fun c => is_control c = false) s.
Proof.
  unfold format_token_for_moonbit.
  destruct (type_is (tok_type token) "StartTag").
  { destruct (items _) as [kvs|e]; cbn [bind]; [|discriminate].
    intros H. injection H as <-. rewrite lower_str_of_bool. printable. }
  destruct (type_is (tok_type token) "EndTag").
  { intros H. injection H as <-. printable. }
  destruct (type_is (tok_type token) "Characters"
            || type_is (tok_type token) "SpaceCharacters").
  { destruct (chars_of _) as [data|e]; cbn [bind]; [|discriminate].
    intros H. injection H as <-. printable. }
  destruct (type_is (tok_type token) "Comment").
  { destruct (chars_of _) as [data|e]; cbn [bind]; [|discriminate].
    intros H. injection H as <-. printable. }
  destruct (type_is (tok_type token) "Doctype").
  { intros H. injection H as <-.
    printable; apply format_optional_printable. }
  destruct (type_is (tok_type token) "ParseError"); discriminate.
Qed.

Lemma format_token_no_control_witness :
  Forall (fun c => is_control c = false)
         (lit "Character('a'), Character('\n')").
Proof.
  apply (format_token_no_control sample_characters). reflexivity.
Defined.

(** X9: the function raises nothing on a token whose keys hold values
    of the types html5lib gives them: a name that is a string, data that
    is a dictionary in a start tag and a string elsewhere; any key may be
    absent and then takes its default. *)
Theorem format_token_returns (token : token) :
  data_well_typed token = true ->
  exists r, format_token_for_moonbit token = Return r.
Proof.
  unfold data_well_typed, format_token_for_moonbit.
  destruct (type_is (tok_type token) "StartTag").
  { destruct (tok_data token) as [[attrs|s]|]; cbn [get items bind negb];
      [eauto | discriminate | eauto]. }
  destruct (type_is (tok_type token) "EndTag"); [eauto|].
  destruct (tok_data token) as [[attrs|s]|]; cbn [get chars_of bind negb];
    try discriminate; intros _;
    repeat match goal with
           | |- context [if ?b then _ else _] => destruct b
           end; eauto.
Qed.

Lemma format_token_returns_witness :
  exists r, format_token_for_moonbit sample_start_tag = Return r.
Proof.
  apply (format_token_returns sample_start_tag). reflexivity.
Defined.

(** X10: an end tag is dumped as [EndTag(name="...")] and a comment as
    [Comment("...")], with the name and the text escaped; an absent name
    or text gives the empty string between the quotes. *)
Theorem format_end_tag_and_comment (token : token) :
  (has_type token "EndTag" ->
   format_token_for_moonbit token
   = Return (Some (lit "EndTag(name=" ++ [dq]
                   ++ escape_for_moonbit (get (tok_name token) [])
                   ++ [dq] ++ lit ")")))
  /\ (has_type token "Comment" ->
      forall data, get (tok_data token) (DataText []) = DataText data ->
      format_token_for_moonbit token
      = Return (Some (lit "Comment(" ++ [dq] ++ escape_for_moonbit data
                      ++ [dq] ++ lit ")"))).
Proof.
  split.
  - intros Ht. apply has_type_is in Ht. unfold format_token_for_moonbit.
    rewrite (type_is_exclusive _ "EndTag" "StartTag" Ht) by discriminate.
    now rewrite Ht.
  - intros Ht data Hd. apply has_type_is in Ht.
    unfold format_token_for_moonbit.
    rewrite (type_is_exclusive _ "Comment" "StartTag" Ht) by discriminate.
    rewrite (type_is_exclusive _ "Comment" "EndTag" Ht) by discriminate.
    rewrite (type_is_exclusive _ "Comment" "Characters" Ht) by discriminate.
    rewrite (type_is_exclusive _ "Comment" "SpaceCharacters" Ht)
      by discriminate.
    cbn [orb]. rewrite Ht, Hd. reflexivity.
Qed.

Lemma format_end_tag_and_comment_witness :
  format_token_for_moonbit sample_end_tag
  = Return (Some (lit "EndTag(name=" ++ [dq]
                  ++ escape_for_moonbit (get (tok_name sample_end_tag) [])
                  ++ [dq] ++ lit ")"))
  /\ format_token_for_moonbit sample_comment
     = Return (Some (lit "Comment(" ++ [dq]
                     ++ escape_for_moonbit [97; 9; 98] ++ [dq] ++ lit ")")).
Proof.
  split.
  - apply (proj1 (format_end_tag_and_comment sample_end_tag)). reflexivity.
  - apply (proj2 (format_end_tag_and_comment sample_comment));
      reflexivity.
Defined.

Example format_comment_sample :
  format_token_for_moonbit sample_comment
  = Return (Some (lit "Comment(" ++ [dq] ++ lit "a\tb" ++ [dq] ++ lit ")")).
Proof. vm_compute. reflexivity. Qed.

(** X11: the dump of a Doctype token follows the name and the two
    identifiers only: two Doctype tokens that agree on them have the
    same dump, whatever their other keys hold, and the dump always ends
    in [force_quirks=false)]. *)
Theorem format_doctype_depends_on_ids (t1 t2 : token) :
  has_type t1 "Doctype" -> has_type t2 "Doctype" ->
  tok_name t1 = tok_name t2 ->
  tok_publicId t1 = tok_publicId t2 ->
  tok_systemId t1 = tok_systemId t2 ->
  format_token_for_moonbit t1 = format_token_for_moonbit t2
  /\ exists s, format_token_for_moonbit t1
               = Return (Some (s ++ lit ", force_quirks=false)")).
Proof.
  intros H1 H2 Hn Hp Hs.
  assert (Hf : forall t, has_type t "Doctype" ->
               format_token_for_moonbit t
               = Return (Some (lit "DOCTYPE(name="
                               ++ format_optional (tok_name t)
                               ++ lit ", public_id="
                               ++ format_optional (tok_publicId t)
                               ++ lit ", system_id="
                               ++ format_optional (tok_systemId t)
                               ++ lit ", force_quirks=false)"))).
  { intros t Ht. apply has_type_is in Ht. unfold format_token_for_moonbit.
    rewrite (type_is_exclusive _ "Doctype" "StartTag" Ht) by discriminate.
    rewrite (type_is_exclusive _ "Doctype" "EndTag" Ht) by discriminate.
    rewrite (type_is_exclusive _ "Doctype" "Characters" Ht) by discriminate.
    rewrite (type_is_exclusive _ "Doctype" "SpaceCharacters" Ht)
      by discriminate.
    rewrite (type_is_exclusive _ "Doctype" "Comment" Ht) by discriminate.
    cbn [orb]. now rewrite Ht. }
  split.
  - rewrite (Hf t1 H1), (Hf t2 H2), Hn, Hp, Hs. reflexivity.
  - rewrite (Hf t1 H1). eexists.
    rewrite !app_assoc. reflexivity.
Qed.

Lemma format_doctype_depends_on_ids_witness :
  format_token_for_moonbit doctype_force_quirks
  = format_token_for_moonbit
      (mkToken (Some (TypeName (lit "Doctype"))) (Some (lit "html"))
               (Some (DataText [1])) (Some true) None None (Some true))
  /\ exists s, format_token_for_moonbit doctype_force_quirks
               = Return (Some (s ++ lit ", force_quirks=false)")).
Proof.
  apply (format_doctype_depends_on_ids doctype_force_quirks
           (mkToken (Some (TypeName (lit "Doctype"))) (Some (lit "html"))
                    (Some (DataText [1])) (Some true) None None
                    (Some true)));
    reflexivity.
Defined.

(** ** The tree dump *)

Lemma split_from_no_sep (sep : char) (s cur : str) :
  contains sep s = false -> split_from sep s cur = [cur ++ s].
Proof.
  revert cur. induction s as [|c s IH]; intros cur; cbn.
  - now rewrite app_nil_r.
  - rewrite (N.eqb_sym sep c). destruct (c =? sep); cbn; [discriminate|].
    intros H. rewrite IH by exact H. now rewrite <- app_assoc.
Qed.

Lemma split_from_at_sep (sep : char) (a b cur : str) :
  contains sep a = false ->
  split_from sep (a ++ sep :: b) cur = (cur ++ a) :: split_from sep b [].
Proof.
  revert cur. induction a as [|c a IH]; intros cur; cbn.
  - intros _. now rewrite N.eqb_refl, app_nil_r.
  - rewrite (N.eqb_sym sep c). destruct (c =? sep); cbn; [discriminate|].
    intros H. rewrite IH by exact H. now rewrite <- app_assoc.
Qed.

Lemma contains_app (c : char) (a b : str) :
  contains c (a ++ b) = contains c a || contains c b.
Proof. apply existsb_app. Qed.

(** X12: a tag in ElementTree's namespace notation, [{uri}name], is
    printed as the bare [name]; a tag without a closing brace is printed
    as it is. *)
Theorem tag_name_strips_namespace
    (uri name : str) (a : list (str * str)) (tx tl : option str)
    (ch : list Element) :
  contains 125 uri = false -> contains 125 name = false ->
  tag_name (mkElement (TagStr (uri ++ [125] ++ name)) a tx tl ch) = name
  /\ tag_name (mkElement (TagStr name) a tx tl ch) = name.
Proof.
  intros Hu Hn. unfold tag_name. cbn [tag]. split.
  - rewrite contains_app, Hu. cbn [app contains existsb orb].
    rewrite N.eqb_refl. cbn [orb]. unfold split.
    rewrite split_from_at_sep by exact Hu.
    rewrite split_from_no_sep by exact Hn. reflexivity.
  - now rewrite Hn.
Qed.

Lemma tag_name_strips_namespace_witness :
  tag_name (mkElement
              (TagStr (lit "{http://www.w3.org/2000/svg" ++ [125]
                       ++ lit "svg")) [] None None []) = lit "svg"
  /\ tag_name (mkElement (TagStr (lit "svg")) [] None None []) = lit "svg".
Proof.
  apply (tag_name_strips_namespace (lit "{http://www.w3.org/2000/svg")
           (lit "svg") [] None None []); reflexivity.
Defined.

Lemma Element_children_ind (P : Element -> Prop) :
  (forall t a tx tl ch, Forall P ch -> P (mkElement t a tx tl ch)) ->
  forall e, P e.
Proof.
  intros H. fix IH 1. intros [t a tx tl ch]. apply H.
  induction ch as [|c ch IHch]; constructor; [apply IH | exact IHch].
Qed.

Lemma str_mul_succ_r (s : str) (n : nat) :
  str_mul s (S n) = str_mul s n ++ s.
Proof.
  induction n as [|n IH]; cbn [str_mul].
  - now rewrite app_nil_r.
  - cbn [str_mul] in IH. rewrite IH at 1. now rewrite app_assoc.
Qed.

Lemma starts_with_app (p r : str) : starts_with p (p ++ r).
Proof. now exists r. Qed.

Lemma payload_lines_start (indent : nat) (s : option str) :
  Forall (starts_with (prefix_of indent)) (payload_lines indent s).
Proof.
  unfold payload_lines. destruct (truthy s); repeat constructor.
  unfold quoted_line. apply starts_with_app.
Qed.

(** X13: every line of the dump of an element begins with the
    indentation of that element: its own lines, and all the lines of its
    descendants, which are indented deeper. *)
Theorem element_to_str_indented (elem : Element) (indent : nat) :
  Forall (starts_with (prefix_of indent)) (element_to_str elem indent).
Proof.
  revert indent.
  induction elem as [t a tx tl ch IH] using Element_children_ind.
  intros indent. rewrite element_to_str_parts.
  repeat (apply Forall_app; split).
  - repeat constructor. unfold tag_line. apply starts_with_app.
  - unfold attr_lines. apply Forall_forall. intros l Hl.
    apply in_map_iff in Hl. destruct Hl as (kv & <- & _).
    unfold attr_line. apply starts_with_app.
  - apply payload_lines_start.
  - cbn [children]. induction IH as [|c ch Hc Hch IHch]; cbn [flat_map].
    + constructor.
    + repeat (apply Forall_app; split).
      * eapply Forall_impl; [|apply (Hc (indent + 1)%nat)].
        intros l (r & ->). unfold prefix_of.
        replace (indent + 1)%nat with (S indent) by lia.
        rewrite str_mul_succ_r, <- app_assoc. apply starts_with_app.
      * apply payload_lines_start.
      * exact IHch.
Qed.

(** X14: the dump does not depend on the order in which the attributes
    were inserted: two elements that differ only in the order of their
    attribute items have the same dump. *)
Theorem element_to_str_attribute_order
    (t : tag_value) (a1 a2 : list (str * str)) (tx tl : option str)
    (ch : list Element) (indent : nat) :
  Permutation a1 a2 ->
  element_to_str (mkElement t a1 tx tl ch) indent
  = element_to_str (mkElement t a2 tx tl ch) indent.
Proof.
  intros Hp. rewrite !element_to_str_parts.
  unfold attr_lines, tag_line, tag_name. cbn [attrib tag text children].
  replace (sorted a2) with (sorted a1); [reflexivity|].
  apply sorted_unique; [|apply sorted_ordered].
  rewrite <- Hp. apply sorted_perm.
Qed.

Lemma element_to_str_attribute_order_witness :
  element_to_str
    (mkElement (TagStr (lit "b")) [(lit "id", lit "x"); (lit "class", lit "c")]
               None None []) 0
  = element_to_str
      (mkElement (TagStr (lit "b"))
                 [(lit "class", lit "c"); (lit "id", lit "x")]
                 None None []) 0.
Proof.
  apply (element_to_str_attribute_order (TagStr (lit "b"))
           [(lit "id", lit "x"); (lit "class", lit "c")]
           [(lit "class", lit "c"); (lit "id", lit "x")] None None [] 0).
  apply perm_swap.
Defined.

(** ** Tokenizing and formatting together *)

(** X15: the formatter and the tokenizer do not meet: when every token
    of the run carries an integer type code, as the tokens of html5lib's
    tokenizer do, [format_token_for_moonbit] gives [None] for each token
    of the list that [tokenize_html] returns. *)
Theorem tokenize_then_format_gives_none
    (HTMLTokenizer : str -> iterator token) (html_content : str) :
  raised (HTMLTokenizer html_content) = None ->
  Forall (fun t => exists n, tok_type t = Some (TypeCode n))
         (yielded (HTMLTokenizer html_content)) ->
  exists l,
    tokenize_html HTMLTokenizer html_content = Return (true, Tokens l)
    /\ Forall (fun t => format_token_for_moonbit t = Return None) l.
Proof.
  intros Hrun Hcodes. rewrite tokenize_html_run, Hrun.
  eexists. split; [reflexivity|].
  eapply Forall_impl; [|exact Hcodes].
  intros t (n & Ht). unfold format_token_for_moonbit. rewrite Ht.
  reflexivity.
Qed.

Lemma tokenize_then_format_gives_none_witness :
  exists l,
    tokenize_html sample_tokenizer [97; 0; 98] = Return (true, Tokens l)
    /\ Forall (fun t => format_token_for_moonbit t = Return None) l.
Proof.
  apply (tokenize_then_format_gives_none sample_tokenizer [97; 0; 98]).
  - reflexivity.
  - repeat constructor; eexists; reflexivity.
Defined.

(** ** main *)

(** X16: when the input can be read (the file named by the first
    argument, or standard input when there is no argument), the script
    prints and exits with status 0 or 1.  If the parser raised, it prints
    the message of the exception and the status is 1.  The status is 0
    only if the parser returned a document, and then the output is the
    tree dump of that document.  A newline ends the output. *)
Theorem main_outcome
    (parse : str -> result Element) (read_file : str -> result str)
    (stdin_read : result str) (argv : list str) (content : str) :
  (if Nat.ltb 1 (length argv) then read_file (nth 1 argv [])
   else stdin_read) = Return content ->
  exists o,
    main parse read_file stdin_read argv = Return o
    /\ (exit_status o = 0 \/ exit_status o = 1)
    /\ (forall e, parse content = Raise e ->
          o = mkOutcome (str_of_exception e ++ [newline]) 1)
    /\ (exit_status o = 0 ->
        exists doc,
          parse content = Return doc
          /\ printed o
             = join [newline] (element_to_str doc 0) ++ [newline]).
Proof.
  unfold main. intros Hin.
  destruct (Nat.ltb 1 (length argv)); rewrite Hin; cbn [bind];
    rewrite parse_html_to_tree_run;
    destruct (parse content) as [doc|e]; cbn [bind print_and_exit];
    eexists; (split; [reflexivity|]); cbn [exit_status printed];
    (split; [auto|]); split;
    try discriminate; try (intros e' He'; now inversion He');
    try (intros _; exists doc; split; reflexivity).
Qed.

Lemma main_outcome_witness :
  exists o,
    main sample_parse sample_read_file (Return [])
         [lit "html_reference.py"; lit "t.html"] = Return o
    /\ (exit_status o = 0 \/ exit_status o = 1)
    /\ (forall e, sample_parse (lit "<b>") = Raise e ->
          o = mkOutcome (str_of_exception e ++ [newline]) 1)
    /\ (exit_status o = 0 ->
        exists doc,
          sample_parse (lit "<b>") = Return doc
          /\ printed o
             = join [newline] (element_to_str doc 0) ++ [newline]).
Proof.
  apply (main_outcome sample_parse sample_read_file (Return [])
           [lit "html_reference.py"; lit "t.html"] (lit "<b>")).
  reflexivity.
Defined.

(** X17: a failure to read the input is not handled: the exception of
    [open], [read] or [sys.stdin.read] ends the run and nothing is
    printed. *)
Theorem main_unreadable_input
    (parse : str -> result Element) (read_file : str -> result str)
    (stdin_read : result str) (argv : list str) (e : Exception) :
  (if Nat.ltb 1 (length argv) then read_file (nth 1 argv [])
   else stdin_read) = Raise e ->
  main parse read_file stdin_read argv = Raise e.
Proof.
  unfold main. intros Hin.
  destruct (Nat.ltb 1 (length argv)); rewrite Hin; reflexivity.
Qed.

Lemma main_unreadable_input_witness :
  main sample_parse sample_read_file (Return [])
       [lit "html_reference.py"; lit "missing.html"]
  = Raise (mkException "FileNotFoundError" (lit "No such file")).
Proof.
  apply (main_unreadable_input sample_parse sample_read_file (Return [])
           [lit "html_reference.py"; lit "missing.html"]).
  reflexivity.
Defined.

Example main_sample_status :
  main sample_parse sample_read_file (Return (lit "<i>")) [lit "x.py"]
  = Return (mkOutcome (lit "unknown document" ++ [newline]) 1).
Proof. reflexivity. Qed.
